(** * Top GitHub repositories: the [App] and [RepositoryItem] components

    A shallow embedding of [src/App.tsx] and [src/RepositoryItem.tsx].

    - [Js] holds the few JavaScript values and operators the two components
      use: truthiness, [&&] and [!==].
    - [RepositoryItem] is the presentational component: one row of the list,
      with its optional "Home Page" link.
    - [AppComponent] is the data-fetching component: three [useState] cells,
      one [useEffect] that calls [axios.get] and chains
      [.then(..).catch(..).finally(..)], and a three-branch render.
    - [TopGitHubRepos] is the component listed in the testing guide.
    - [FirstRender] takes the first render in two phases: the frame
      committed from the initial values of the cells, then the effect.
    - [Unguarded] is [App] with a fetch capability that is not a promise
      and calls the handlers at every completion signal. *)

From Stdlib Require Import String List Bool ZArith Lia.
Import ListNotations.
Open Scope string_scope.

(* ------------------------------------------------------------------ *)
(** ** JavaScript values *)

Module Js.

(** The values a field of a repository record from the search API can take
    when read through [repo: any]: a string, [null], or [undefined] when the
    field is absent; [JBool] is the result type of [!==]. *)
Inductive jsval : Type :=
| JUndefined
| JNull
| JBool (b : bool)
| JString (s : string).

(** [ToBoolean]: [undefined], [null], [false] and the empty string are falsy. *)
Definition truthy (v : jsval) : bool :=
  match v with
  | JUndefined | JNull => false
  | JBool b => b
  | JString s => negb (s =? "")
  end.

(** [a === b] on these values: same type and same value. *)
Definition strict_eq (a b : jsval) : bool :=
  match a, b with
  | JUndefined, JUndefined => true
  | JNull, JNull => true
  | JBool x, JBool y => Bool.eqb x y
  | JString x, JString y => (x =? y)
  | _, _ => false
  end.

(** [a !== b] *)
Definition strict_neq (a b : jsval) : bool := negb (strict_eq a b).

(** [a && b] returns [a] when [a] is falsy and [b] otherwise. *)
Definition js_and (a b : jsval) : jsval := if truthy a then b else a.

(** Truthiness of a string-typed cell, as in [if (error)]. *)
Definition truthy_string (s : string) : bool := negb (s =? "").

End Js.

(* ------------------------------------------------------------------ *)
(** ** RepositoryItem.tsx *)

Module RepositoryItem.
Import Js.

(** [interface RepositoryItemProps].  The interface declares the two URLs as
    [string], but [App] fills them from an untyped record, so they are
    [jsval]s here. *)
Record RepositoryItemProps : Type := mkProps {
  name : string;
  watchCount : Z;
  homepageUrl : jsval;
  repositoryUrl : jsval
}.

(** What the expression in braces after the repository link evaluates to:
    either the fragment [<> - <a href={homepageUrl}>Home Page</a></>] or the
    falsy operand at which the [&&] chain stopped. *)
Inductive Child : Type :=
| HomepageLink (href : jsval)
| Falsy (v : jsval).

(** [cond && (<>...</>)] *)
Definition and_then (cond : jsval) (element : Child) : Child :=
  if truthy cond then element else Falsy cond.

(** The rendered row: the repository link with its two spans, then the child
    produced by the [&&] chain. *)
Record Row : Type := mkRow {
  repoHref : jsval;
  nameSpan : string;
  watchersSpan : Z;
  homepageChild : Child
}.

(** The condition of line 24, [&&] associating to the left:
    [homepageUrl && repositoryUrl && homepageUrl !== repositoryUrl]. *)
Definition homepage_condition (props : RepositoryItemProps) : jsval :=
  js_and (js_and (homepageUrl props) (repositoryUrl props))
         (JBool (strict_neq (homepageUrl props) (repositoryUrl props))).

Definition RepositoryItem (props : RepositoryItemProps) : Row :=
  {| repoHref := repositoryUrl props;
     nameSpan := name props;
     watchersSpan := watchCount props;
     homepageChild := and_then (homepage_condition props)
                               (HomepageLink (homepageUrl props)) |}.

(** React renders [false], [null], [undefined] and the empty string as
    nothing: the row has the homepage link exactly when the child is the
    fragment. *)
Definition has_homepage_link (r : Row) : bool :=
  match homepageChild r with
  | HomepageLink _ => true
  | Falsy _ => false
  end.

(** The condition of the suppression rule as the specification words it:
    [homepageUrl] is non-empty and different from [repositoryUrl]. *)
Definition homepage_nonempty_and_distinct (props : RepositoryItemProps) : bool :=
  truthy (homepageUrl props)
  && strict_neq (homepageUrl props) (repositoryUrl props).

End RepositoryItem.

(* ------------------------------------------------------------------ *)
(** ** App.tsx *)

Module AppComponent.
Import Js.

(** One element of [response.data.items], read through [repo: any]: the
    five fields the render branch looks at. *)
Record Repo : Type := mkRepo {
  id : Z;
  name : string;
  watchers : Z;
  html_url : jsval;
  homepage : jsval
}.

(** The three [useState] cells, in declaration order. *)
Record Cells : Type := mkCells {
  isLoading : bool;
  error : string;
  topRepositories : list Repo
}.

(** [useState(true)], [useState("")], [useState([])] *)
Definition initial_cells : Cells :=
  {| isLoading := true; error := ""; topRepositories := [] |}.

(** A call of one of the three setters. *)
Inductive Update : Type :=
| SetIsLoading (b : bool)
| SetError (message : string)
| SetTopRepositories (items : list Repo).

Definition apply_update (u : Update) (c : Cells) : Cells :=
  match u with
  | SetIsLoading b =>
      {| isLoading := b; error := error c; topRepositories := topRepositories c |}
  | SetError m =>
      {| isLoading := isLoading c; error := m; topRepositories := topRepositories c |}
  | SetTopRepositories l =>
      {| isLoading := isLoading c; error := error c; topRepositories := l |}
  end.

(** How the promise returned by [axios.get] settles: fulfilled with a
    response whose [data.items] is [items], or rejected with an [err] whose
    [err.message] is [message]. *)
Inductive Settlement : Type :=
| Fulfilled (items : list Repo)
| Rejected (message : string).

(** The promise returned by [axios.get]. *)
Inductive Request : Type :=
| NotIssued
| Pending
| Settled (s : Settlement).

(** Where the chain [.then(..).catch(..).finally(..)] stands.  Each handler
    runs in a microtask of its own, queued when the promise before it
    settles.  [CatchQueued thrown] records how the promise returned by
    [.then] settled: [None] when the success handler ran, [Some m] when the
    rejection (with message [m]) passed through. *)
Inductive Chain : Type :=
| Waiting
| ThenQueued
| CatchQueued (thrown : option string)
| FinallyQueued
| Completed.

(** The component instance: not yet rendered, live, or torn down. *)
Inductive Life : Type :=
| Unborn
| Mounted
| Unmounted.

(** The component instance with what it shares with its environment.
    [staleUpdates] lists the setter calls made on the instance after it was
    unmounted (React drops them: the cells keep their values). *)
Record World : Type := mkWorld {
  life : Life;
  cells : Cells;
  fetchCalls : nat;
  request : Request;
  chain : Chain;
  console : list (list Repo);
  staleUpdates : list Update
}.

Definition fresh : World :=
  {| life := Unborn; cells := initial_cells; fetchCalls := 0;
     request := NotIssued; chain := Waiting; console := [];
     staleUpdates := [] |}.

Definition set_life (l : Life) (w : World) : World :=
  mkWorld l (cells w) (fetchCalls w) (request w) (chain w) (console w)
          (staleUpdates w).

Definition set_chain (c : Chain) (w : World) : World :=
  mkWorld (life w) (cells w) (fetchCalls w) (request w) c (console w)
          (staleUpdates w).

(** A setter call: applied to the cells of a live instance, dropped (and
    recorded) on an instance that is not mounted. *)
Definition dispatch (u : Update) (w : World) : World :=
  match life w with
  | Mounted =>
      mkWorld (life w) (apply_update u (cells w)) (fetchCalls w) (request w)
              (chain w) (console w) (staleUpdates w)
  | Unborn | Unmounted =>
      mkWorld (life w) (cells w) (fetchCalls w) (request w) (chain w)
              (console w) (staleUpdates w ++ [u])
  end.

(** [console.log(response.data.items)] *)
Definition console_log (items : list Repo) (w : World) : World :=
  mkWorld (life w) (cells w) (fetchCalls w) (request w) (chain w)
          (console w ++ [items]) (staleUpdates w).

(** [axios.get(url)]: one more call, a pending promise, and the three
    handlers registered on it. *)
Definition axios_get (w : World) : World :=
  mkWorld (life w) (cells w) (S (fetchCalls w)) Pending Waiting (console w)
          (staleUpdates w).

(** The callback given to [useEffect] (lines 14-27). *)
Definition effect (w : World) : World :=
  axios_get (dispatch (SetIsLoading true) w).

(** [.then((response) => { console.log(..); setTopRepositories(..); })] *)
Definition on_fulfilled (items : list Repo) (w : World) : World :=
  dispatch (SetTopRepositories items) (console_log items w).

(** [.catch((err) => { setError(err.message); })] *)
Definition on_rejected (message : string) (w : World) : World :=
  dispatch (SetError message) w.

(** [.finally(() => { setIsLoading(false); })] *)
Definition on_finally (w : World) : World :=
  dispatch (SetIsLoading false) w.

(** The dependency array of the effect, [[]]. *)
Definition deps : list jsval := [].

(** React compares the dependency arrays of two renders element by element. *)
Fixpoint same_deps (prev next : list jsval) : bool :=
  match prev, next with
  | [], [] => true
  | x :: prev', y :: next' => strict_eq x y && same_deps prev' next'
  | _, _ => false
  end.

(** The first render: the instance is live and the three [useState] calls
    give the cells their initial values. *)
Definition mount (w : World) : World :=
  mkWorld Mounted initial_cells (fetchCalls w) (request w) (chain w)
          (console w) (staleUpdates w).

(** A render of the component.  The first one mounts it and runs the
    effect; a later one runs the effect again only when the dependency array
    has changed; a torn-down instance is not rendered. *)
Definition render (w : World) : World :=
  match life w with
  | Unborn => effect (mount w)
  | Mounted => if same_deps deps deps then w else effect w
  | Unmounted => w
  end.

(** A completion signal for the request.  A promise settles once: the signal
    is taken when the promise is pending and has no effect otherwise. *)
Definition settle (s : Settlement) (w : World) : World :=
  match request w with
  | Pending =>
      mkWorld (life w) (cells w) (fetchCalls w) (Settled s) ThenQueued
              (console w) (staleUpdates w)
  | NotIssued | Settled _ => w
  end.

(** Run the queued microtask, if there is one. *)
Definition tick (w : World) : World :=
  match chain w with
  | ThenQueued =>
      match request w with
      | Settled (Fulfilled items) =>
          set_chain (CatchQueued None) (on_fulfilled items w)
      | Settled (Rejected m) => set_chain (CatchQueued (Some m)) w
      | NotIssued | Pending => w
      end
  | CatchQueued None => set_chain FinallyQueued w
  | CatchQueued (Some m) => set_chain FinallyQueued (on_rejected m w)
  | FinallyQueued => set_chain Completed (on_finally w)
  | Waiting | Completed => w
  end.

Definition unmount (w : World) : World :=
  match life w with
  | Mounted => set_life Unmounted w
  | Unborn | Unmounted => w
  end.

(** What can happen to the instance. *)
Inductive Event : Type :=
| Render
| Settle (s : Settlement)
| Tick
| Unmount.

Definition step (w : World) (e : Event) : World :=
  match e with
  | Render => render w
  | Settle s => settle s w
  | Tick => tick w
  | Unmount => unmount w
  end.

Definition run (w : World) (evs : list Event) : World :=
  fold_left step evs w.

(** The props [App] gives to one [RepositoryItem], with its [key]. *)
Definition item_props (repo : Repo) : Z * RepositoryItem.RepositoryItemProps :=
  (id repo,
   RepositoryItem.mkProps (name repo) (watchers repo) (homepage repo)
                          (html_url repo)).

(** What [App] returns. *)
Inductive Element : Type :=
| LoadingSpinner
| ErrorMessage (message : string)
| RepoList (items : list (Z * RepositoryItem.RepositoryItemProps)).

(** The body of [App] after the hooks (lines 30-53). *)
Definition App (c : Cells) : Element :=
  if isLoading c then LoadingSpinner
  else if truthy_string (error c) then ErrorMessage (error c)
  else RepoList (map item_props (topRepositories c)).

(** What is on screen: the element of a live instance. *)
Definition projection (w : World) : option Element :=
  match life w with
  | Mounted => Some (App (cells w))
  | Unborn | Unmounted => None
  end.

(** The rows an element shows. *)
Definition rows (el : Element) : list RepositoryItem.Row :=
  match el with
  | RepoList items => map (fun kp => RepositoryItem.RepositoryItem (snd kp)) items
  | LoadingSpinner | ErrorMessage _ => []
  end.

Definition is_loading (el : Element) : bool :=
  match el with LoadingSpinner => true | _ => false end.
Definition is_error (el : Element) : bool :=
  match el with ErrorMessage _ => true | _ => false end.
Definition is_ready (el : Element) : bool :=
  match el with RepoList _ => true | _ => false end.

(** The first completion signal of an event list. *)
Fixpoint first_settlement (evs : list Event) : option Settlement :=
  match evs with
  | [] => None
  | Settle s :: _ => Some s
  | _ :: evs' => first_settlement evs'
  end.

Definition is_unmount (e : Event) : bool :=
  match e with Unmount => true | _ => false end.
Definition is_render (e : Event) : bool :=
  match e with Render => true | _ => false end.

(** All three handlers of the chain have run. *)
Definition quiescent (w : World) : bool :=
  match chain w with Completed => true | _ => false end.

(** Initialization, a completion signal, and the three microtasks. *)
Definition lifecycle (s : Settlement) : list Event :=
  [Render; Settle s; Tick; Tick; Tick].

(** *** The worlds an execution goes through

    As long as the instance is not torn down in the middle of the chain, the
    world is a function of three things: whether the instance has been torn
    down, how the request stands, and where the chain stands. *)

Definition items_of (s : Settlement) : list Repo :=
  match s with Fulfilled items => items | Rejected _ => [] end.

Definition message_of (s : Settlement) : string :=
  match s with Fulfilled _ => "" | Rejected m => m end.

Definition thrown_of (s : Settlement) : option string :=
  match s with Fulfilled _ => None | Rejected m => Some m end.

(** The setter call of the success handler and of the failure handler. *)
Definition then_updates (s : Settlement) : list Update :=
  match s with Fulfilled items => [SetTopRepositories items] | Rejected _ => [] end.

Definition catch_updates (s : Settlement) : list Update :=
  match s with Fulfilled _ => [] | Rejected m => [SetError m] end.

(** No handler has run yet. *)
Definition early (c : Chain) : bool :=
  match c with
  | Waiting | ThenQueued => true
  | CatchQueued _ | FinallyQueued | Completed => false
  end.

Definition consistent (r : Request) (c : Chain) : Prop :=
  match r with
  | NotIssued => False
  | Pending => c = Waiting
  | Settled s =>
      match c with
      | Waiting => False
      | CatchQueued t => t = thrown_of s
      | ThenQueued | FinallyQueued | Completed => True
      end
  end.

Definition cells_at (r : Request) (c : Chain) : Cells :=
  match r with
  | Settled s =>
      match c with
      | Waiting | ThenQueued => initial_cells
      | CatchQueued _ => mkCells true "" (items_of s)
      | FinallyQueued => mkCells true (message_of s) (items_of s)
      | Completed => mkCells false (message_of s) (items_of s)
      end
  | NotIssued | Pending => initial_cells
  end.

Definition console_at (r : Request) (c : Chain) : list (list Repo) :=
  match r with
  | Settled (Fulfilled items) => if early c then [] else [items]
  | Settled (Rejected _) | NotIssued | Pending => []
  end.

Definition stale_at (r : Request) (c : Chain) : list Update :=
  match r with
  | Settled s =>
      match c with
      | Waiting | ThenQueued => []
      | CatchQueued _ => then_updates s
      | FinallyQueued => then_updates s ++ catch_updates s
      | Completed => (then_updates s ++ catch_updates s) ++ [SetIsLoading false]
      end
  | NotIssued | Pending => []
  end.

(** [Inv torn w]: [w] is the world of an instance that was initialised once
    and, when [torn], torn down before any handler ran. *)
Definition Inv (torn : bool) (w : World) : Prop :=
  life w = (if torn then Unmounted else Mounted)
  /\ consistent (request w) (chain w)
  /\ cells w = (if torn then initial_cells else cells_at (request w) (chain w))
  /\ console w = console_at (request w) (chain w)
  /\ staleUpdates w = (if torn then stale_at (request w) (chain w) else [])
  /\ fetchCalls w = 1.

(** What holds of every world after the first render, wherever the
    teardown falls. *)
Definition Reach (w : World) : Prop :=
  life w <> Unborn
  /\ request w <> NotIssued
  /\ (request w = Pending -> chain w = Waiting)
  /\ (chain w = Waiting -> request w = Pending)
  /\ (isLoading (cells w) = false -> chain w = Completed).

Definition settled (w : World) : bool :=
  match request w with
  | Settled _ => true
  | NotIssued | Pending => false
  end.

(** How many of the three variants an element is. *)
Definition variants_active (el : Element) : nat :=
  Nat.b2n (is_loading el) + Nat.b2n (is_error el) + Nat.b2n (is_ready el).

(** The fixtures of [App.test.tsx]. *)
Definition freeCodeCamp : Repo :=
  mkRepo 28457823 "freeCodeCamp" 323864 JUndefined
         (JString "https://contribute.freecodecamp.org").
Definition icu996 : Repo :=
  mkRepo 177736533 "996.ICU" 256883 JUndefined (JString "https://996.icu").

End AppComponent.

(* ------------------------------------------------------------------ *)
(** ** What a row and a list show *)

Module Rendering.
Import Js.

(** The text React puts in the document for a child that is a value:
    [false], [true], [null] and [undefined] give nothing, a string gives
    itself. *)
Definition rendered_text (v : jsval) : string :=
  match v with
  | JString s => s
  | JUndefined | JNull | JBool _ => ""
  end.

(** The text that follows the repository link in a row (lines 24-31): the
    span [" - "] and the link text ["Home Page"] of the fragment, or the text
    of the operand the [&&] chain stopped at. *)
Definition trailing_text (c : RepositoryItem.Child) : string :=
  match c with
  | RepositoryItem.HomepageLink _ => " - Home Page"
  | RepositoryItem.Falsy v => rendered_text v
  end.

(** The condition of [RepositoryItem] line 24 read on the fields of a
    repository record, as [App] passes them (lines 43-49). *)
Definition repo_has_homepage_link (repo : AppComponent.Repo) : bool :=
  truthy (AppComponent.homepage repo)
  && truthy (AppComponent.html_url repo)
  && strict_neq (AppComponent.homepage repo) (AppComponent.html_url repo).

End Rendering.

(* ------------------------------------------------------------------ *)
(** ** The component of the testing guide

    [TopGitHubRepos], the component listed in the guide: the same three
    cells, the same effect and the same three branches as [App]; its success
    handler only calls [setTopRepositories], and the list is wrapped in a
    fragment, which adds no node. *)

Module TopGitHubRepos.
Import AppComponent.

(** [.then((response) => setTopRepositories(response.data.items))] *)
Definition on_fulfilled (items : list Repo) (w : World) : World :=
  dispatch (SetTopRepositories items) w.

(** [.catch((err) => setError(err.message))] *)
Definition on_rejected (message : string) (w : World) : World :=
  dispatch (SetError message) w.

(** [.finally(() => setIsLoading(false))] *)
Definition on_finally (w : World) : World :=
  dispatch (SetIsLoading false) w.

(** Run the queued microtask, if there is one. *)
Definition tick (w : World) : World :=
  match chain w with
  | ThenQueued =>
      match request w with
      | Settled (Fulfilled items) =>
          set_chain (CatchQueued None) (on_fulfilled items w)
      | Settled (Rejected m) => set_chain (CatchQueued (Some m)) w
      | NotIssued | Pending => w
      end
  | CatchQueued None => set_chain FinallyQueued w
  | CatchQueued (Some m) => set_chain FinallyQueued (on_rejected m w)
  | FinallyQueued => set_chain Completed (on_finally w)
  | Waiting | Completed => w
  end.

(** The effect body ([setIsLoading(true)], then [axios.get] with the same
    URL) and the dependency array are those of [App]. *)
Definition step (w : World) (e : Event) : World :=
  match e with
  | Render => render w
  | Settle s => settle s w
  | Tick => tick w
  | Unmount => unmount w
  end.

Definition run (w : World) (evs : list Event) : World :=
  fold_left step evs w.

(** The body of [TopGitHubRepos] after the hooks. *)
Definition TopGitHubRepos (c : Cells) : Element :=
  if isLoading c then LoadingSpinner
  else if Js.truthy_string (error c) then ErrorMessage (error c)
  else RepoList (map item_props (topRepositories c)).

(** A world with what was written to the console left out. *)
Definition silence (w : World) : World :=
  mkWorld (life w) (cells w) (fetchCalls w) (request w) (chain w) []
          (staleUpdates w).

End TopGitHubRepos.

(* ------------------------------------------------------------------ *)
(** ** What holds wherever the teardown falls *)

Module Anywhere.
Import AppComponent.

(** How many setter calls can have reached a defunct instance when the
    chain stands at [c]. *)
Definition stale_bound (c : Chain) : nat :=
  match c with
  | Waiting | ThenQueued | CatchQueued (Some _) => 0
  | CatchQueued None | FinallyQueued => 1
  | Completed => 2
  end.

(** What holds of every world after the first render: the chain stands
    where the request allows, the console holds what the success handler
    wrote, the cells [error] and [topRepositories] hold their initial value
    or what the request delivered, and the dropped setter calls are within
    [stale_bound]. *)
Definition Gen (w : World) : Prop :=
  life w <> Unborn
  /\ consistent (request w) (chain w)
  /\ console w = console_at (request w) (chain w)
  /\ (error (cells w) = ""
      \/ request w = Settled (Rejected (error (cells w))))
  /\ (topRepositories (cells w) = []
      \/ request w = Settled (Fulfilled (topRepositories (cells w))))
  /\ length (staleUpdates w) <= stale_bound (chain w).

End Anywhere.

(* ------------------------------------------------------------------ *)
(** ** The first render, frame by frame

    React commits the first frame from the values the three [useState]
    calls return, and runs the effect afterwards.  [AppComponent.render]
    takes the two together; here they are two phases, with the frame
    between them on screen. *)

Module FirstRender.
Import AppComponent.

(** An instance, and whether the effect of its first render is still to
    run. *)
Record Instance : Type := mkInstance {
  world : World;
  effectPending : bool
}.

Definition created : Instance := mkInstance fresh false.

Inductive Phase : Type :=
| Commit
| Flush
| Then (e : Event).

(** The first frame: the cells take their initial values and the element
    [App] returns for them is committed; the effect is scheduled. *)
Definition commit (i : Instance) : Instance :=
  match life (world i) with
  | Unborn => mkInstance (mount (world i)) true
  | Mounted | Unmounted => i
  end.

(** The scheduled effect runs. *)
Definition flush (i : Instance) : Instance :=
  if effectPending i then mkInstance (effect (world i)) false else i.

(** React runs a scheduled effect before it renders or unmounts again; a
    completion signal or a microtask leaves it scheduled. *)
Definition advance (i : Instance) (p : Phase) : Instance :=
  match p with
  | Commit => commit i
  | Flush => flush i
  | Then Render => mkInstance (step (world (flush i)) Render) false
  | Then Unmount => mkInstance (step (world (flush i)) Unmount) false
  | Then (Settle s) => mkInstance (step (world i) (Settle s)) (effectPending i)
  | Then Tick => mkInstance (step (world i) Tick) (effectPending i)
  end.

Definition play (i : Instance) (ps : list Phase) : Instance :=
  fold_left advance ps i.

(** Neither a teardown nor a completion signal. *)
Definition quiet (p : Phase) : bool :=
  match p with
  | Then Unmount | Then (Settle _) => false
  | Commit | Flush | Then Render | Then Tick => true
  end.

(** Between the first frame and a completion signal the instance is in
    one of two states: the first frame with the effect still to run, or a
    live world whose request is pending. *)
Definition Awaiting (i : Instance) : Prop :=
  i = mkInstance (mount fresh) true
  \/ (effectPending i = false
      /\ Inv false (world i)
      /\ request (world i) = Pending).

End FirstRender.

(* ------------------------------------------------------------------ *)
(** ** A fetch capability that is not a promise

    [App] registers its three handlers on whatever [axios.get] returns and
    keeps no record of a completion.  A promise settles once, which is what
    [AppComponent.settle] says.  Here the capability instead keeps the
    registered handlers and calls them, in the order of the chain, at every
    completion signal it is given. *)

Module Unguarded.
Import AppComponent.


(** A completion signal: the success or the failure handler, then the
    [finally] handler. *)
Definition signal (s : Settlement) (w : World) : World :=
  match request w with
  | NotIssued => w
  | Pending | Settled _ =>
      let handled :=
        on_finally
          match s with
          | Fulfilled items => on_fulfilled items w
          | Rejected m => on_rejected m w
          end in
      mkWorld (life handled) (cells handled) (fetchCalls handled) (Settled s)
              Completed (console handled) (staleUpdates handled)
  end.

(** The handlers run inside [signal]; no microtask is left for [Tick]. *)
Definition step (w : World) (e : Event) : World :=
  match e with
  | Render => render w
  | Settle s => signal s w
  | Tick => w
  | Unmount => unmount w
  end.

Definition run (w : World) (evs : list Event) : World :=
  fold_left step evs w.

End Unguarded.

(* ------------------------------------------------------------------ *)
(** ** Facts about the JavaScript operators *)

Import Js.

Lemma truthy_js_and (a b : jsval) :
  truthy (js_and a b) = truthy a && truthy b.
Proof.
  unfold js_and. destruct (truthy a) eqn:Ha; simpl; auto.
Qed.

Lemma strict_eq_refl (a : jsval) : strict_eq a a = true.
Proof.
  destruct a; simpl; auto using Bool.eqb_reflx, String.eqb_refl.
Qed.

Lemma strict_eq_true_iff (a b : jsval) : strict_eq a b = true <-> a = b.
Proof.
  split; [| intros ->; apply strict_eq_refl].
  destruct a, b; simpl; try discriminate; auto.
  - intros H. apply Bool.eqb_prop in H. now subst.
  - intros H. apply String.eqb_eq in H. now subst.
Qed.

Lemma truthy_string_false_iff (s : string) : truthy_string s = false <-> s = "".
Proof.
  unfold truthy_string. rewrite negb_false_iff. apply String.eqb_eq.
Qed.

Lemma truthy_string_true_iff (s : string) : truthy_string s = true <-> s <> "".
Proof.
  unfold truthy_string. rewrite negb_true_iff. apply String.eqb_neq.
Qed.

(* ------------------------------------------------------------------ *)
(** ** The homepage link of a row *)

Section HomepageLink.
Import RepositoryItem.

Lemma has_homepage_link_condition (props : RepositoryItemProps) :
  has_homepage_link (RepositoryItem props) = truthy (homepage_condition props).
Proof.
  unfold has_homepage_link, RepositoryItem, and_then; simpl.
  destruct (truthy (homepage_condition props)); reflexivity.
Qed.

Lemma has_homepage_link_spec (props : RepositoryItemProps) :
  has_homepage_link (RepositoryItem props)
  = truthy (homepageUrl props) && truthy (repositoryUrl props)
    && strict_neq (homepageUrl props) (repositoryUrl props).
Proof.
  rewrite has_homepage_link_condition. unfold homepage_condition.
  now rewrite !truthy_js_and.
Qed.

(** Whatever the two URLs are, the row has the homepage link exactly when
    both are non-empty and they differ. *)
Lemma homepage_link_conditions (props : RepositoryItemProps) :
  has_homepage_link (RepositoryItem props) = true
  <-> truthy (homepageUrl props) = true
      /\ truthy (repositoryUrl props) = true
      /\ homepageUrl props <> repositoryUrl props.
Proof.
  rewrite has_homepage_link_spec. split.
  - rewrite !andb_true_iff. intros [[Hh Hr] Hne]. repeat split; auto.
    unfold strict_neq in Hne. apply negb_true_iff in Hne.
    intros E. apply strict_eq_true_iff in E. congruence.
  - intros (Hh & Hr & Hne). rewrite Hh, Hr. simpl. unfold strict_neq.
    apply negb_true_iff. destruct (strict_eq _ _) eqn:E; auto.
    apply strict_eq_true_iff in E. contradiction.
Qed.

(** C2: for a row whose [repositoryUrl] is present (non-empty), the row
    includes the homepage link if and only if [homepageUrl] is non-empty and
    different from [repositoryUrl]: the link is excluded when the two are
    equal, excluded when [homepageUrl] is the empty string, and included
    when [homepageUrl] is non-empty and distinct from [repositoryUrl]. *)
Theorem homepage_suppression_rule (props : RepositoryItemProps) :
  truthy (repositoryUrl props) = true ->
  (has_homepage_link (RepositoryItem props) = true
   <-> truthy (homepageUrl props) = true
       /\ homepageUrl props <> repositoryUrl props)
  /\ has_homepage_link (RepositoryItem props)
     = homepage_nonempty_and_distinct props
  /\ (homepageUrl props = repositoryUrl props ->
      has_homepage_link (RepositoryItem props) = false)
  /\ (homepageUrl props = JString "" ->
      has_homepage_link (RepositoryItem props) = false)
  /\ (truthy (homepageUrl props) = true ->
      homepageUrl props <> repositoryUrl props ->
      has_homepage_link (RepositoryItem props) = true).
Proof.
  intros Hr. split; [|split; [|split; [|split]]].
  - rewrite homepage_link_conditions. split.
    + intros (Hh & _ & Hne). now split.
    + intros (Hh & Hne). now repeat split.
  - rewrite has_homepage_link_spec, Hr, andb_true_r. reflexivity.
  - intros E. rewrite has_homepage_link_spec, E. unfold strict_neq.
    rewrite strict_eq_refl. simpl. apply andb_false_r.
  - intros E. rewrite has_homepage_link_spec, E. reflexivity.
  - intros Hh Hne. apply homepage_link_conditions. now repeat split.
Qed.

Lemma homepage_suppression_rule_witness :
  has_homepage_link
    (RepositoryItem
       (mkProps "freeCodeCamp" 323864
          (JString "https://contribute.freecodecamp.org")
          (JString "https://github.com/freeCodeCamp/freeCodeCamp")))
  = homepage_nonempty_and_distinct
      (mkProps "freeCodeCamp" 323864
         (JString "https://contribute.freecodecamp.org")
         (JString "https://github.com/freeCodeCamp/freeCodeCamp")).
Proof.
  destruct (homepage_suppression_rule
              (mkProps "freeCodeCamp" 323864
                 (JString "https://contribute.freecodecamp.org")
                 (JString "https://github.com/freeCodeCamp/freeCodeCamp")))
    as (_ & H & _); [reflexivity | exact H].
Defined.

(** C9: a row whose [repositoryUrl] is empty or absent has no homepage link,
    whatever its [homepageUrl]. *)
Theorem no_homepage_link_without_repository_url (props : RepositoryItemProps) :
  truthy (repositoryUrl props) = false ->
  has_homepage_link (RepositoryItem props) = false.
Proof.
  intros H. rewrite has_homepage_link_spec, H.
  now rewrite andb_false_r.
Qed.

Lemma no_homepage_link_without_repository_url_witness :
  has_homepage_link
    (RepositoryItem
       (mkProps "996.ICU" 256883 (JString "https://996.icu") JUndefined))
  = false.
Proof.
  apply no_homepage_link_without_repository_url. reflexivity.
Defined.

End HomepageLink.

(* ------------------------------------------------------------------ *)
(** ** The life of an [App] instance *)

Section Lifecycle.
Import AppComponent.

Example two_items_ready :
  projection (run fresh (lifecycle (Fulfilled [freeCodeCamp; icu996])))
  = Some (RepoList [item_props freeCodeCamp; item_props icu996]).
Proof. reflexivity. Qed.

Example loading_between_handlers :
  projection (run fresh [Render; Settle (Rejected "Network Error"); Tick; Tick])
  = Some LoadingSpinner.
Proof. reflexivity. Qed.

Lemma run_app (w : World) (evs1 evs2 : list Event) :
  run w (evs1 ++ evs2) = run (run w evs1) evs2.
Proof. apply fold_left_app. Qed.

Lemma run_cons (w : World) (e : Event) (evs : list Event) :
  run w (e :: evs) = run (step w e) evs.
Proof. reflexivity. Qed.

(** Before the first render nothing but a render has an effect. *)
Lemma step_fresh (e : Event) : is_render e = false -> step fresh e = fresh.
Proof. destruct e as [|s| |]; simpl; try discriminate; reflexivity. Qed.

Lemma Inv_mount : Inv false (step fresh Render).
Proof. unfold Inv; simpl; repeat split; reflexivity. Qed.

(** One step keeps the invariant; an unmount is allowed when no handler has
    run yet. *)
Lemma Inv_step (torn : bool) (w : World) (e : Event) :
  Inv torn w ->
  (is_unmount e = true -> torn = true \/ early (chain w) = true) ->
  Inv (torn || is_unmount e) (step w e).
Proof.
  destruct w as [l c n r ch con st]. unfold Inv; simpl.
  intros (-> & Hc & -> & -> & -> & ->) Hu.
  destruct r as [| |[items|m]]; simpl in Hc; try contradiction;
    destruct ch as [| |[t|]| |]; simpl in Hc;
    try contradiction; try discriminate; try (injection Hc as Hc); subst;
    destruct torn, e as [|[items'|m']| |]; simpl in *;
    try (destruct (Hu eq_refl); discriminate);
    repeat split; reflexivity.
Qed.

Lemma Inv_request_step (torn : bool) (w : World) (e : Event) :
  Inv torn w ->
  request (step w e)
  = match e, request w with
    | Settle s, Pending => Settled s
    | _, r => r
    end.
Proof.
  destruct w as [l c n r ch con st]. unfold Inv; simpl.
  intros (-> & Hc & _).
  destruct r as [| |[items|m]]; simpl in Hc; try contradiction;
    destruct ch as [| |[t|]| |]; simpl in Hc;
    try contradiction; try discriminate;
    destruct torn, e as [|[items'|m']| |]; reflexivity.
Qed.

(** While the request is pending, any event other than a completion signal
    keeps the invariant, and the request stays pending. *)
Lemma Inv_run_pending (evs : list Event) :
  forall (torn : bool) (w : World),
    Inv torn w -> request w = Pending -> first_settlement evs = None ->
    Inv (torn || existsb is_unmount evs) (run w evs)
    /\ request (run w evs) = Pending.
Proof.
  induction evs as [|e evs IH]; intros torn w HI Hr Hf.
  - simpl. now rewrite orb_false_r.
  - rewrite run_cons. simpl existsb. rewrite orb_assoc.
    assert (He : request (step w e) = Pending).
    { rewrite (Inv_request_step torn w e HI), Hr.
      destruct e; try reflexivity; discriminate. }
    apply IH; auto.
    + apply Inv_step; auto. intros _. right.
      destruct HI as (_ & Hc & _). rewrite Hr in Hc. simpl in Hc.
      now rewrite Hc.
    + destruct e; try assumption; discriminate.
Qed.

(** Without a teardown in the middle of the chain the invariant is kept. *)
Lemma Inv_run (evs : list Event) :
  forall (torn : bool) (w : World),
    Inv torn w -> torn = true \/ existsb is_unmount evs = false ->
    Inv torn (run w evs).
Proof.
  induction evs as [|e evs IH]; intros torn w HI Hu; [assumption|].
  rewrite run_cons. apply IH.
  - replace torn with (torn || is_unmount e) at 1.
    + apply Inv_step; auto. intros He. destruct Hu as [Hu|Hu]; [now left|].
      simpl in Hu. rewrite He in Hu. discriminate.
    + destruct Hu as [->|Hu]; [reflexivity|].
      simpl in Hu. apply orb_false_elim in Hu as [-> _]. apply orb_false_r.
  - destruct Hu as [Hu|Hu]; [now left|right].
    simpl in Hu. now apply orb_false_elim in Hu as [_ Hu].
Qed.

Lemma Inv_request_run_settled (evs : list Event) :
  forall (torn : bool) (w : World) (s : Settlement),
    Inv torn w -> torn = true \/ existsb is_unmount evs = false ->
    request w = Settled s ->
    request (run w evs) = Settled s.
Proof.
  induction evs as [|e evs IH]; intros torn w s HI Hu Hr; [assumption|].
  rewrite run_cons.
  assert (HI' : Inv torn (step w e)).
  { apply (Inv_run [e] torn w HI). destruct Hu as [Hu|Hu]; [now left|right].
    simpl in *. apply orb_false_elim in Hu as [-> _]. reflexivity. }
  apply (IH torn); auto.
  - destruct Hu as [Hu|Hu]; [now left|right].
    simpl in Hu. now apply orb_false_elim in Hu as [_ Hu].
  - rewrite (Inv_request_step torn w e HI), Hr. now destruct e.
Qed.

(** The request settles the way the first completion signal says. *)
Lemma Inv_request_run_first (evs : list Event) :
  forall (torn : bool) (w : World) (s : Settlement),
    Inv torn w -> torn = true \/ existsb is_unmount evs = false ->
    request w = Pending -> first_settlement evs = Some s ->
    request (run w evs) = Settled s.
Proof.
  induction evs as [|e evs IH]; intros torn w s HI Hu Hr Hf; [discriminate|].
  rewrite run_cons.
  assert (HI' : Inv torn (step w e)).
  { apply (Inv_run [e] torn w HI). destruct Hu as [Hu|Hu]; [now left|right].
    simpl in *. apply orb_false_elim in Hu as [-> _]. reflexivity. }
  assert (Hu' : torn = true \/ existsb is_unmount evs = false).
  { destruct Hu as [Hu|Hu]; [now left|right].
    simpl in Hu. now apply orb_false_elim in Hu as [_ Hu]. }
  pose proof (Inv_request_step torn w e HI) as Hreq. rewrite Hr in Hreq.
  destruct e as [|s'| |]; simpl in Hf.
  - apply (IH torn); auto.
  - injection Hf as ->. apply (Inv_request_run_settled evs torn); auto.
  - apply (IH torn); auto.
  - apply (IH torn); auto.
Qed.

(** The cells of a live instance once the chain has completed. *)
Lemma terminal_cells (evs : list Event) (s : Settlement) :
  existsb is_unmount evs = false ->
  first_settlement evs = Some s ->
  quiescent (run fresh (Render :: evs)) = true ->
  life (run fresh (Render :: evs)) = Mounted
  /\ cells (run fresh (Render :: evs)) = mkCells false (message_of s) (items_of s).
Proof.
  intros Hu Hf Hq. rewrite run_cons in *.
  pose proof (Inv_run evs false _ Inv_mount (or_intror Hu)) as HI.
  pose proof (Inv_request_run_first evs false _ s Inv_mount (or_intror Hu)
                eq_refl Hf) as Hr.
  destruct HI as (Hl & _ & Hc & _). split; [assumption|].
  rewrite Hc, Hr. unfold quiescent in Hq.
  destruct (chain (run (step fresh Render) evs)); try discriminate. reflexivity.
Qed.

Lemma lifecycle_quiescent (s : Settlement) :
  quiescent (run fresh (lifecycle s)) = true.
Proof. destruct s; reflexivity. Qed.

Lemma Reach_mount : Reach (step fresh Render).
Proof. unfold Reach; simpl; repeat split; auto; discriminate. Qed.

Lemma Reach_step (w : World) (e : Event) : Reach w -> Reach (step w e).
Proof.
  destruct w as [l [b err items] n r ch con st]. unfold Reach; simpl.
  intros (Hl & Hr & Hp & Hw & Hb).
  destruct l; try contradiction;
    destruct r as [| |s]; try contradiction;
    destruct ch as [| |[t|]| |];
    try (specialize (Hp eq_refl); discriminate);
    try (specialize (Hw eq_refl); discriminate);
    destruct b; try (specialize (Hb eq_refl); discriminate);
    destruct e as [|s'| |]; try destruct s; simpl;
    repeat split; intros; auto; discriminate.
Qed.

Lemma Reach_run (evs : list Event) :
  forall w : World, Reach w -> Reach (run w evs).
Proof.
  induction evs as [|e evs IH]; intros w H; [assumption|].
  rewrite run_cons. apply IH, Reach_step, H.
Qed.

(** After the first render no event issues a request. *)
Lemma fetchCalls_step (w : World) (e : Event) :
  Reach w -> fetchCalls (step w e) = fetchCalls w.
Proof.
  destruct w as [l c n r ch con st]. unfold Reach; simpl.
  intros (Hl & _).
  destruct l; try contradiction;
    destruct e as [|s| |]; simpl; try reflexivity;
    try (destruct r; reflexivity);
    destruct ch as [| |[t|]| |]; try reflexivity;
    destruct r as [| |[items|m]]; reflexivity.
Qed.

Lemma fetchCalls_run (evs : list Event) :
  forall w : World, Reach w -> fetchCalls (run w evs) = fetchCalls w.
Proof.
  induction evs as [|e evs IH]; intros w H; [reflexivity|].
  rewrite run_cons, IH by now apply Reach_step.
  now apply fetchCalls_step.
Qed.

(** A completion signal on a settled request changes nothing. *)
Lemma settle_settled (w : World) (s : Settlement) :
  settled w = true -> step w (Settle s) = w.
Proof.
  unfold settled; simpl; unfold settle.
  destruct (request w); try discriminate; reflexivity.
Qed.

Lemma settled_after_settle (w : World) (s : Settlement) :
  Reach w -> settled (step w (Settle s)) = true.
Proof.
  intros (_ & Hr & _). unfold settled; simpl; unfold settle.
  destruct (request w) eqn:E; try contradiction; simpl; auto.
  now rewrite E.
Qed.

Lemma settled_step (w : World) (e : Event) :
  Reach w -> settled w = true -> settled (step w e) = true.
Proof.
  destruct w as [l c n r ch con st]. unfold Reach, settled; simpl.
  intros (Hl & _) Hs.
  destruct r as [| |s]; try discriminate.
  destruct l; try contradiction;
    destruct e as [|s'| |]; try reflexivity;
    destruct ch as [| |[t|]| |]; try reflexivity;
    destruct s; reflexivity.
Qed.

Lemma settled_run (evs : list Event) :
  forall w : World, Reach w -> settled w = true -> settled (run w evs) = true.
Proof.
  induction evs as [|e evs IH]; intros w H Hs; [assumption|].
  rewrite run_cons. apply IH; [now apply Reach_step | now apply settled_step].
Qed.

(** Once [isLoading] is false, no event changes the cells. *)
Lemma cells_step_loaded (w : World) (e : Event) :
  Reach w -> isLoading (cells w) = false -> cells (step w e) = cells w.
Proof.
  intros (Hl & Hr & Hp & Hw & Hb) Hload. specialize (Hb Hload).
  destruct w as [l c n r ch con st]; simpl in *; subst.
  destruct e as [|s| |]; simpl; try reflexivity.
  - destruct l; try contradiction; reflexivity.
  - unfold settle; simpl. destruct r; reflexivity.
  - destruct l; reflexivity.
Qed.

Lemma cells_run_loaded (evs : list Event) :
  forall w : World,
    Reach w -> isLoading (cells w) = false -> cells (run w evs) = cells w.
Proof.
  induction evs as [|e evs IH]; intros w H Hload; [reflexivity|].
  rewrite run_cons.
  pose proof (cells_step_loaded w e H Hload) as E.
  rewrite IH; [assumption | now apply Reach_step | now rewrite E].
Qed.

Lemma variants_active_App (c : Cells) : variants_active (App c) = 1.
Proof.
  unfold App. destruct (isLoading c); [reflexivity|].
  destruct (truthy_string (error c)); reflexivity.
Qed.

End Lifecycle.

(* ------------------------------------------------------------------ *)
(** ** Properties of [App] *)

Section Properties.
Import AppComponent.

(** C1: when the request is fulfilled with the items [S], the chain runs to
    its end, and the instance then holds [S] unchanged and shows one row
    descriptor per item of [S], in the order of [S]; for the empty sequence
    it shows the list with no row at all. *)
Theorem fetch_success_ready (S : list Repo) (evs : list Event) :
  existsb is_unmount evs = false ->
  first_settlement evs = Some (Fulfilled S) ->
  quiescent (run fresh (Render :: evs)) = true ->
  quiescent (run fresh (lifecycle (Fulfilled S))) = true
  /\ topRepositories (cells (run fresh (Render :: evs))) = S
  /\ projection (run fresh (Render :: evs)) = Some (RepoList (map item_props S))
  /\ rows (App (cells (run fresh (Render :: evs))))
     = map (fun repo => RepositoryItem.RepositoryItem (snd (item_props repo))) S
  /\ (S = [] ->
      projection (run fresh (Render :: evs)) = Some (RepoList [])
      /\ length (rows (App (cells (run fresh (Render :: evs))))) = 0).
Proof.
  intros Hu Hf Hq.
  destruct (terminal_cells evs (Fulfilled S) Hu Hf Hq) as [Hl Hc].
  unfold projection. rewrite Hl, Hc. simpl.
  split; [apply lifecycle_quiescent|].
  split; [reflexivity|]. split; [reflexivity|].
  split; [now rewrite map_map|].
  intros ->. split; reflexivity.
Qed.

Lemma fetch_success_ready_witness :
  projection (run fresh (Render :: [Settle (Fulfilled [freeCodeCamp; icu996]);
                                     Tick; Render; Tick; Tick]))
  = Some (RepoList (map item_props [freeCodeCamp; icu996])).
Proof.
  apply (fetch_success_ready [freeCodeCamp; icu996]
           [Settle (Fulfilled [freeCodeCamp; icu996]); Tick; Render; Tick; Tick]);
    reflexivity.
Defined.

(** C3 as stated fails for the empty message: the instance then shows the
    (empty) list, not an error indicator. *)
Lemma fetch_failure_empty_message_not_error :
  projection (run fresh (lifecycle (Rejected ""))) = Some (RepoList [])
  /\ projection (run fresh (lifecycle (Rejected ""))) <> Some (ErrorMessage "").
Proof. split; [reflexivity | discriminate]. Qed.

(** C3 (amended): when the request is rejected with a non-empty message [m],
    the chain runs to its end, and the instance then stores [m] unchanged
    and shows the error indicator carrying exactly [m]; so for
    "A terrible error occurred :(". *)
Theorem fetch_failure_error (m : string) (evs : list Event) :
  m <> "" ->
  existsb is_unmount evs = false ->
  first_settlement evs = Some (Rejected m) ->
  quiescent (run fresh (Render :: evs)) = true ->
  quiescent (run fresh (lifecycle (Rejected m))) = true
  /\ error (cells (run fresh (Render :: evs))) = m
  /\ projection (run fresh (Render :: evs)) = Some (ErrorMessage m)
  /\ projection (run fresh (lifecycle (Rejected "A terrible error occurred :(")))
     = Some (ErrorMessage "A terrible error occurred :(").
Proof.
  intros Hm Hu Hf Hq.
  destruct (terminal_cells evs (Rejected m) Hu Hf Hq) as [Hl Hc].
  unfold projection. rewrite Hl, Hc. simpl.
  split; [apply lifecycle_quiescent|].
  split; [reflexivity|]. split; [|reflexivity].
  unfold App; simpl. apply truthy_string_true_iff in Hm. now rewrite Hm.
Qed.

Lemma fetch_failure_error_witness :
  projection (run fresh (Render :: [Tick; Settle (Rejected "Network Error");
                                     Tick; Tick; Tick]))
  = Some (ErrorMessage "Network Error").
Proof.
  apply (fetch_failure_error "Network Error"
           [Tick; Settle (Rejected "Network Error"); Tick; Tick; Tick]);
    [discriminate | reflexivity | reflexivity | reflexivity].
Defined.

(** Once the effect has run and as long as no completion signal has
    arrived, the instance shows the wait indicator, whatever else happens
    and however the request will settle. *)
Lemma loading_until_completion (evs : list Event) :
  existsb is_unmount evs = false ->
  first_settlement evs = None ->
  projection (run fresh (Render :: evs)) = Some LoadingSpinner.
Proof.
  intros Hu Hf. rewrite run_cons.
  destruct (Inv_run_pending evs false _ Inv_mount eq_refl Hf) as [HI Hr].
  rewrite Hu in HI. destruct HI as (Hl & _ & Hc & _).
  unfold projection. rewrite Hl, Hc, Hr. reflexivity.
Qed.

Lemma loading_until_completion_witness :
  projection (run fresh (Render :: [Tick; Render; Tick])) = Some LoadingSpinner.
Proof.
  apply (loading_until_completion [Tick; Render; Tick]); reflexivity.
Defined.

(** With a promise, which settles once: the execution with a second
    completion signal ends in the same world as the execution without it;
    and once the instance has left the loading state, no event changes its
    cells again. *)
Lemma completion_applied_once
    (evs1 evs2 evs3 evs evs' : list Event) (s1 s2 : Settlement) :
  run fresh (Render :: evs1 ++ Settle s1 :: evs2 ++ Settle s2 :: evs3)
  = run fresh (Render :: evs1 ++ Settle s1 :: evs2 ++ evs3)
  /\ (isLoading (cells (run fresh (Render :: evs))) = false ->
      cells (run fresh (Render :: evs ++ evs'))
      = cells (run fresh (Render :: evs))).
Proof.
  split.
  - rewrite !run_cons, !run_app, !run_cons, !run_app, run_cons.
    f_equal. apply settle_settled.
    pose proof (Reach_run evs1 _ Reach_mount) as H1.
    apply settled_run.
    + now apply Reach_step.
    + now apply settled_after_settle.
  - intros Hload. rewrite !run_cons, run_app in *.
    apply cells_run_loaded; [|assumption].
    apply Reach_run, Reach_mount.
Qed.

Lemma completion_applied_once_witness :
  cells (run fresh (Render :: lifecycle (Fulfilled [freeCodeCamp])
                     ++ [Settle (Rejected "late"); Tick; Tick; Tick]))
  = cells (run fresh (Render :: lifecycle (Fulfilled [freeCodeCamp]))).
Proof.
  apply (proj2 (completion_applied_once [] [] []
                  (lifecycle (Fulfilled [freeCodeCamp]))
                  [Settle (Rejected "late"); Tick; Tick; Tick]
                  (Fulfilled []) (Fulfilled []))).
  reflexivity.
Defined.

(** C6 as stated fails: after a teardown that precedes the completion
    signal, the handlers still run; the success handler writes the items to
    the console and the setters are called on the defunct instance. *)
Lemma late_completion_reaches_defunct_instance :
  life (run fresh [Render; Unmount]) = Unmounted
  /\ request (run fresh [Render; Unmount]) = Pending
  /\ console (run (run fresh [Render; Unmount])
                  [Settle (Fulfilled [freeCodeCamp]); Tick; Tick; Tick])
     = [[freeCodeCamp]]
  /\ staleUpdates (run (run fresh [Render; Unmount])
                       [Settle (Fulfilled [freeCodeCamp]); Tick; Tick; Tick])
     = [SetTopRepositories [freeCodeCamp]; SetIsLoading false]
  /\ run (run fresh [Render; Unmount])
         [Settle (Fulfilled [freeCodeCamp]); Tick; Tick; Tick]
     <> run fresh [Render; Unmount].
Proof. repeat split; try reflexivity. discriminate. Qed.

(** C6 (amended): when the instance is torn down before the completion
    signal, the three handlers still run; they call their setters on the
    defunct instance, the success handler after writing the items to the
    console; the cells of the defunct instance keep their initial values
    and nothing is on screen. *)
Theorem teardown_before_completion
    (evs1 evs2 : list Event) (s : Settlement) :
  first_settlement evs1 = None ->
  first_settlement evs2 = Some s ->
  quiescent (run fresh (Render :: evs1 ++ Unmount :: evs2)) = true ->
  cells (run fresh (Render :: evs1 ++ Unmount :: evs2)) = initial_cells
  /\ projection (run fresh (Render :: evs1 ++ Unmount :: evs2)) = None
  /\ staleUpdates (run fresh (Render :: evs1 ++ Unmount :: evs2))
     = ((then_updates s ++ catch_updates s) ++ [SetIsLoading false])%list
  /\ console (run fresh (Render :: evs1 ++ Unmount :: evs2))
     = match s with Fulfilled items => [items] | Rejected _ => [] end.
Proof.
  intros Hf1 Hf2 Hq. rewrite run_cons, run_app, run_cons in *.
  destruct (Inv_run_pending evs1 false _ Inv_mount eq_refl Hf1) as [HI Hr].
  set (w1 := run (step fresh Render) evs1) in *.
  assert (HI2 : Inv true (step w1 Unmount)).
  { replace true with ((false || existsb is_unmount evs1) || is_unmount Unmount)
      by apply orb_true_r.
    apply Inv_step; [assumption|]. intros _. right.
    destruct HI as (_ & Hc & _). rewrite Hr in Hc. simpl in Hc. now rewrite Hc. }
  assert (Hr2 : request (step w1 Unmount) = Pending).
  { now rewrite (Inv_request_step _ w1 Unmount HI), Hr. }
  pose proof (Inv_run evs2 true _ HI2 (or_introl eq_refl)) as HI3.
  pose proof (Inv_request_run_first evs2 true _ s HI2 (or_introl eq_refl)
                Hr2 Hf2) as Hr3.
  destruct HI3 as (Hl & _ & Hc & Hcon & Hst & _).
  unfold projection. rewrite Hl, Hc, Hcon, Hst, Hr3.
  unfold quiescent in Hq.
  destruct (chain (run (step w1 Unmount) evs2)); try discriminate.
  repeat split; reflexivity.
Qed.

Lemma teardown_before_completion_witness :
  staleUpdates (run fresh (Render :: [Tick] ++ Unmount ::
                             [Settle (Rejected "Network Error"); Tick; Tick; Tick]))
  = [SetError "Network Error"; SetIsLoading false].
Proof.
  apply (teardown_before_completion [Tick]
           [Settle (Rejected "Network Error"); Tick; Tick; Tick]
           (Rejected "Network Error")); reflexivity.
Defined.

(** C7: an instance calls [axios.get] exactly once, at its first render:
    never before it, and never again after it, whether the request is
    fulfilled, rejected or never settles. *)
Theorem exactly_one_fetch (evs : list Event) :
  fetchCalls (run fresh evs) = (if existsb is_render evs then 1 else 0)
  /\ fetchCalls (run fresh (Render :: evs)) = 1.
Proof.
  assert (H1 : forall l, fetchCalls (run fresh (Render :: l)) = 1).
  { intros l. rewrite run_cons, fetchCalls_run by apply Reach_mount. reflexivity. }
  split; [|apply H1].
  induction evs as [|e evs IH]; [reflexivity|].
  destruct e as [|s| |]; simpl existsb; try apply H1;
    rewrite run_cons, step_fresh by reflexivity; exact IH.
Qed.

(** C8: whatever the three cells hold, [App] returns exactly one of the
    three variants: the wait indicator when [isLoading] is set, else the
    error indicator when [error] is non-empty, else the list; so at every
    point of every execution. *)
Theorem exactly_one_variant (c : Cells) (evs : list Event) :
  variants_active (App c) = 1
  /\ is_loading (App c) = isLoading c
  /\ is_error (App c) = negb (isLoading c) && Js.truthy_string (error c)
  /\ is_ready (App c) = negb (isLoading c) && negb (Js.truthy_string (error c))
  /\ variants_active (App (cells (run fresh evs))) = 1.
Proof.
  split; [apply variants_active_App|].
  split; [|split; [|split; [|apply variants_active_App]]];
    unfold App; destruct (isLoading c); simpl; try reflexivity;
    destruct (Js.truthy_string (error c)); reflexivity.
Qed.

(** C10: when the request is rejected with the empty message, the instance
    ends up showing the list with no items, not an error indicator: its
    cells are those left by a request fulfilled with no items. *)
Theorem empty_message_failure_shows_ready (evs : list Event) :
  existsb is_unmount evs = false ->
  first_settlement evs = Some (Rejected "") ->
  quiescent (run fresh (Render :: evs)) = true ->
  projection (run fresh (Render :: evs)) = Some (RepoList [])
  /\ is_error (App (cells (run fresh (Render :: evs)))) = false
  /\ cells (run fresh (Render :: evs))
     = cells (run fresh (lifecycle (Fulfilled []))).
Proof.
  intros Hu Hf Hq.
  destruct (terminal_cells evs (Rejected "") Hu Hf Hq) as [Hl Hc].
  unfold projection. rewrite Hl, Hc. repeat split; reflexivity.
Qed.

Lemma empty_message_failure_shows_ready_witness :
  projection (run fresh (Render :: [Settle (Rejected ""); Tick; Tick; Tick]))
  = Some (RepoList []).
Proof.
  apply (empty_message_failure_shows_ready
           [Settle (Rejected ""); Tick; Tick; Tick]); reflexivity.
Defined.

End Properties.

(* ------------------------------------------------------------------ *)
(** ** Rows: text, links and fields *)

Section Rows.
Import RepositoryItem Rendering.

Lemma falsy_renders_nothing (v : jsval) :
  truthy v = false -> rendered_text v = "".
Proof.
  destruct v as [| |b|s]; simpl; try reflexivity.
  intros H. apply negb_false_iff, String.eqb_eq in H. exact H.
Qed.

(** X1: after the repository link a row shows either the text of the
    homepage link or nothing at all: the operand at which the [&&] chain
    stops never leaves text in the row. *)
Theorem trailing_text_link_or_nothing (props : RepositoryItemProps) :
  trailing_text (homepageChild (RepositoryItem props))
  = if has_homepage_link (RepositoryItem props) then " - Home Page" else "".
Proof.
  unfold has_homepage_link, RepositoryItem, and_then; simpl.
  destruct (truthy (homepage_condition props)) eqn:E; simpl; [reflexivity|].
  now apply falsy_renders_nothing.
Qed.

(** X2: when a row has the homepage link, the link points to [homepageUrl],
    and the two links of the row point to different, non-empty targets. *)
Theorem homepage_link_target (props : RepositoryItemProps) :
  has_homepage_link (RepositoryItem props) = true ->
  homepageChild (RepositoryItem props) = HomepageLink (homepageUrl props)
  /\ homepageUrl props <> repoHref (RepositoryItem props)
  /\ truthy (homepageUrl props) = true
  /\ truthy (repoHref (RepositoryItem props)) = true.
Proof.
  intros H. pose proof H as Hs.
  rewrite has_homepage_link_spec, !andb_true_iff in Hs.
  destruct Hs as [[Hh Hr] Hne].
  rewrite has_homepage_link_condition in H.
  unfold RepositoryItem, and_then; simpl. rewrite H.
  repeat split; auto.
  intros E. unfold strict_neq in Hne. apply negb_true_iff in Hne.
  apply strict_eq_true_iff in E. congruence.
Qed.

Lemma homepage_link_target_witness :
  homepageChild
    (RepositoryItem
       (mkProps "freeCodeCamp" 323864
          (JString "https://contribute.freecodecamp.org")
          (JString "https://github.com/freeCodeCamp/freeCodeCamp")))
  = HomepageLink (JString "https://contribute.freecodecamp.org").
Proof.
  apply (homepage_link_target
           (mkProps "freeCodeCamp" 323864
              (JString "https://contribute.freecodecamp.org")
              (JString "https://github.com/freeCodeCamp/freeCodeCamp"))).
  reflexivity.
Defined.

(** X3: the list [App] builds from the records [S] has one row per record,
    in order, with the repository link taken from [html_url], the name from
    [name], the watcher count from [watchers] and the key from [id]. *)
Theorem list_rows_fields (S : list AppComponent.Repo) :
  map repoHref (AppComponent.rows (AppComponent.RepoList (map AppComponent.item_props S)))
  = map AppComponent.html_url S
  /\ map nameSpan (AppComponent.rows (AppComponent.RepoList (map AppComponent.item_props S)))
     = map AppComponent.name S
  /\ map watchersSpan (AppComponent.rows (AppComponent.RepoList (map AppComponent.item_props S)))
     = map AppComponent.watchers S
  /\ map fst (map AppComponent.item_props S) = map AppComponent.id S
  /\ length (AppComponent.rows (AppComponent.RepoList (map AppComponent.item_props S)))
     = length S.
Proof.
  simpl. rewrite !map_map, !length_map. repeat split; reflexivity.
Qed.

(** X4: in the list [App] builds from the records [S], the rows that have a
    homepage link are those of the records whose [homepage] and [html_url]
    are both non-empty and differ; so a list of records without [html_url]
    shows no homepage link. *)
Theorem list_rows_homepage_links (S : list AppComponent.Repo) :
  map has_homepage_link
      (AppComponent.rows (AppComponent.RepoList (map AppComponent.item_props S)))
  = map repo_has_homepage_link S
  /\ (forallb (fun repo => negb (truthy (AppComponent.html_url repo))) S = true ->
      existsb has_homepage_link
        (AppComponent.rows (AppComponent.RepoList (map AppComponent.item_props S)))
      = false).
Proof.
  assert (E : map has_homepage_link
                (AppComponent.rows
                   (AppComponent.RepoList (map AppComponent.item_props S)))
              = map repo_has_homepage_link S).
  { simpl. rewrite !map_map. apply map_ext. intros repo.
    now rewrite has_homepage_link_spec. }
  split; [exact E|]. clear E.
  induction S as [|repo S IH]; intros H; [reflexivity|].
  simpl in H. apply andb_prop in H as [Hr HS]. apply negb_true_iff in Hr.
  simpl in *. rewrite has_homepage_link_spec; simpl.
  rewrite Hr, andb_false_r. simpl. now apply IH.
Qed.

Lemma list_rows_homepage_links_witness :
  existsb has_homepage_link
    (AppComponent.rows
       (AppComponent.RepoList
          (map AppComponent.item_props
               [AppComponent.freeCodeCamp; AppComponent.icu996])))
  = false.
Proof.
  apply (proj2 (list_rows_homepage_links
                  [AppComponent.freeCodeCamp; AppComponent.icu996])).
  reflexivity.
Defined.

End Rows.

(* ------------------------------------------------------------------ *)
(** ** Executions with a teardown anywhere *)

Section AnywhereFacts.
Import AppComponent Anywhere.

Lemma Gen_mount : Gen (step fresh Render).
Proof. unfold Gen; simpl. repeat split; auto. discriminate. Qed.

Lemma Gen_step (w : World) (e : Event) : Gen w -> Gen (step w e).
Proof.
  destruct w as [l [b err items] n r ch con st]. unfold Gen; simpl.
  intros (Hl & Hc & -> & He & Hi & Hs).
  destruct l; try contradiction;
    destruct r as [| |[S|m]]; simpl in Hc; try contradiction;
    destruct ch as [| |[t|]| |]; simpl in Hc;
    try contradiction; try discriminate; try (injection Hc as Hc); subst;
    destruct e as [|[S'|m']| |]; simpl in *;
    repeat split; auto; try discriminate;
    try (rewrite length_app; simpl; lia);
    try (destruct He as [He|He]; [now left | discriminate]);
    try (destruct Hi as [Hi|Hi]; [now left | discriminate]).
Qed.

Lemma Gen_run (evs : list Event) :
  forall w : World, Gen w -> Gen (run w evs).
Proof.
  induction evs as [|e evs IH]; intros w H; [assumption|].
  rewrite run_cons. apply IH, Gen_step, H.
Qed.

(** Once the instance is torn down it stays so, and its cells and its
    count of requests stay as they are. *)
Lemma defunct_step (w : World) (e : Event) :
  life w = Unmounted ->
  life (step w e) = Unmounted
  /\ cells (step w e) = cells w
  /\ fetchCalls (step w e) = fetchCalls w.
Proof.
  destruct w as [l c n r ch con st]; simpl. intros ->.
  destruct e as [|s| |]; simpl; auto.
  - unfold settle; simpl. destruct r; auto.
  - unfold tick; simpl.
    destruct ch as [| |[t|]| |]; auto; destruct r as [| |[items|m]]; auto.
Qed.

Lemma defunct_run (evs : list Event) :
  forall w : World,
    life w = Unmounted ->
    life (run w evs) = Unmounted
    /\ cells (run w evs) = cells w
    /\ fetchCalls (run w evs) = fetchCalls w.
Proof.
  induction evs as [|e evs IH]; intros w H; [auto|].
  rewrite run_cons.
  destruct (defunct_step w e H) as (Hl & Hc & Hn).
  destruct (IH _ Hl) as (Hl' & Hc' & Hn').
  repeat split; congruence.
Qed.

End AnywhereFacts.

(* ------------------------------------------------------------------ *)
(** ** Further properties of [App] *)

Section MoreProperties.
Import AppComponent Anywhere.

(** X5: a live instance shows the wait indicator exactly as long as the
    last handler of the chain has not run: what the success or the failure
    handler has stored is not on screen before [finally] has cleared
    [isLoading]. *)
Theorem loading_iff_chain_running (evs : list Event) :
  existsb is_unmount evs = false ->
  (projection (run fresh (Render :: evs)) = Some LoadingSpinner
   <-> quiescent (run fresh (Render :: evs)) = false).
Proof.
  intros Hu. rewrite run_cons.
  pose proof (Inv_run evs false _ Inv_mount (or_intror Hu)) as HI.
  set (w := run (step fresh Render) evs) in *.
  destruct HI as (Hl & Hc & Hcells & _).
  unfold projection, quiescent. rewrite Hl, Hcells.
  destruct (request w) as [| |s]; simpl in Hc; try contradiction.
  - rewrite Hc. simpl. split; reflexivity.
  - destruct (chain w) as [| |t| |];
      simpl; try contradiction; try (split; reflexivity).
    split; [|discriminate]. unfold App; simpl.
    destruct (Js.truthy_string (message_of s)); discriminate.
Qed.

Lemma loading_iff_chain_running_witness :
  projection (run fresh (Render :: [Settle (Fulfilled [freeCodeCamp]); Tick; Tick]))
  = Some LoadingSpinner.
Proof.
  apply (proj2 (loading_iff_chain_running
                  [Settle (Fulfilled [freeCodeCamp]); Tick; Tick] eq_refl)).
  reflexivity.
Defined.

(** X6: wherever the teardown falls, a non-empty [topRepositories] is the
    item list the request was fulfilled with, and [error] and
    [topRepositories] are never non-empty together: the success handler is
    the only one to store items, and no run stores both a message and
    items. *)
Theorem error_and_items_never_together (evs : list Event) :
  (topRepositories (cells (run fresh (Render :: evs))) = []
   \/ request (run fresh (Render :: evs))
      = Settled (Fulfilled (topRepositories (cells (run fresh (Render :: evs))))))
  /\ (error (cells (run fresh (Render :: evs))) = ""
      \/ topRepositories (cells (run fresh (Render :: evs))) = []).
Proof.
  rewrite run_cons.
  destruct (Gen_run evs _ Gen_mount) as (_ & _ & _ & He & Hi & _).
  split; [exact Hi|].
  destruct He as [He|He]; [now left|].
  destruct Hi as [Hi|Hi]; [now right|].
  rewrite He in Hi. discriminate.
Qed.

(** X7: wherever the teardown falls, [App] writes to the console at most
    once, and only the item list of a fulfilment, once the success handler
    has run; a rejection writes nothing. *)
Theorem console_logs_items_once (evs : list Event) :
  length (console (run fresh (Render :: evs))) <= 1
  /\ (forall items,
        In items (console (run fresh (Render :: evs))) ->
        request (run fresh (Render :: evs)) = Settled (Fulfilled items))
  /\ (forall items,
        request (run fresh (Render :: evs)) = Settled (Fulfilled items) ->
        early (chain (run fresh (Render :: evs))) = false ->
        console (run fresh (Render :: evs)) = [items])
  /\ (forall m,
        request (run fresh (Render :: evs)) = Settled (Rejected m) ->
        console (run fresh (Render :: evs)) = []).
Proof.
  rewrite run_cons.
  destruct (Gen_run evs _ Gen_mount) as (_ & _ & Hcon & _).
  set (w := run (step fresh Render) evs) in *.
  rewrite Hcon. unfold console_at.
  destruct (request w) as [| |[S|m]];
    try (simpl; split; [lia | split; [contradiction | split; discriminate]]).
  - destruct (early (chain w)); simpl.
    + split; [lia | split; [contradiction | split; discriminate]].
    + split; [lia | split; [| split; [| discriminate]]].
      * intros items [<-|[]]. reflexivity.
      * intros items H _. now injection H as ->.
  - simpl.
    split; [lia | split; [contradiction | split; [discriminate | reflexivity]]].
Qed.

Lemma console_logs_items_once_witness :
  console (run fresh (Render :: [Unmount; Settle (Fulfilled [icu996]); Tick]))
  = [[icu996]].
Proof.
  apply (proj1 (proj2 (proj2 (console_logs_items_once
                  [Unmount; Settle (Fulfilled [icu996]); Tick]))));
    reflexivity.
Defined.

(** X8: wherever the teardown falls, at most two setter calls reach the
    defunct instance (the one of the success or of the failure handler, and
    the one of [finally]); without a teardown there is none. *)
Theorem stale_updates_bounded (evs : list Event) :
  length (staleUpdates (run fresh (Render :: evs))) <= 2
  /\ (existsb is_unmount evs = false ->
      staleUpdates (run fresh (Render :: evs)) = []).
Proof.
  rewrite run_cons. split.
  - destruct (Gen_run evs _ Gen_mount) as (_ & _ & _ & _ & _ & Hs).
    set (w := run (step fresh Render) evs) in *.
    destruct (chain w) as [| |[t|]| |]; simpl in Hs; lia.
  - intros Hu.
    now destruct (Inv_run evs false _ Inv_mount (or_intror Hu))
      as (_ & _ & _ & _ & Hst & _).
Qed.

Lemma stale_updates_bounded_witness :
  staleUpdates (run fresh (Render :: lifecycle (Rejected "Network Error"))) = [].
Proof.
  apply (proj2 (stale_updates_bounded (lifecycle (Rejected "Network Error")))).
  reflexivity.
Defined.

(** X9: once an instance is torn down, no later event (a render, a
    completion signal, a handler) changes its cells, puts anything on
    screen, or issues a request. *)
Theorem defunct_instance_is_frozen (evs evs' : list Event) :
  life (run fresh evs) = Unmounted ->
  cells (run fresh (evs ++ evs')) = cells (run fresh evs)
  /\ projection (run fresh (evs ++ evs')) = None
  /\ fetchCalls (run fresh (evs ++ evs')) = fetchCalls (run fresh evs).
Proof.
  intros H. rewrite run_app.
  destruct (defunct_run evs' _ H) as (Hl & Hc & Hn).
  unfold projection. rewrite Hl. auto.
Qed.

Lemma defunct_instance_is_frozen_witness :
  cells (run fresh ([Render; Settle (Fulfilled [freeCodeCamp]); Tick; Unmount]
                    ++ [Tick; Tick; Render]))
  = cells (run fresh [Render; Settle (Fulfilled [freeCodeCamp]); Tick; Unmount]).
Proof.
  apply (defunct_instance_is_frozen
           [Render; Settle (Fulfilled [freeCodeCamp]); Tick; Unmount]
           [Tick; Tick; Render]).
  reflexivity.
Defined.

Lemma silence_step (w : World) (e : Event) :
  TopGitHubRepos.step (TopGitHubRepos.silence w) e
  = TopGitHubRepos.silence (step w e).
Proof.
  destruct w as [l c n r ch con st].
  destruct e as [|s| |]; simpl.
  - destruct l; reflexivity.
  - destruct r; reflexivity.
  - destruct ch as [| |[t|]| |]; try (destruct l; reflexivity);
      destruct r as [| |[items|m]]; try reflexivity; destruct l; reflexivity.
  - destruct l; reflexivity.
Qed.

Lemma silence_run (evs : list Event) :
  forall w : World,
    TopGitHubRepos.run (TopGitHubRepos.silence w) evs
    = TopGitHubRepos.silence (run w evs).
Proof.
  induction evs as [|e evs IH]; intros w; [reflexivity|].
  simpl. rewrite silence_step. apply IH.
Qed.

(** X10: the component listed in the guide and [App] go through the same
    states: after any events they hold the same cells, have issued the same
    requests, have had the same setter calls dropped and return the same
    element; they differ only in that the guide's component writes nothing
    to the console. *)
Theorem guide_component_agrees_with_App (evs : list Event) :
  TopGitHubRepos.run fresh evs = TopGitHubRepos.silence (run fresh evs)
  /\ TopGitHubRepos.TopGitHubRepos (cells (TopGitHubRepos.run fresh evs))
     = App (cells (run fresh evs))
  /\ console (TopGitHubRepos.run fresh evs) = [].
Proof.
  pose proof (silence_run evs fresh) as H.
  change (TopGitHubRepos.silence fresh) with fresh in H.
  rewrite H. repeat split; reflexivity.
Qed.

Lemma rerender_mounted (w : World) :
  life w <> Unborn -> step w Render = w.
Proof.
  intros Hl. simpl. unfold render.
  destruct (life w); try contradiction; reflexivity.
Qed.

Lemma run_without_rerenders (evs : list Event) :
  forall w : World,
    Reach w ->
    run w evs = run w (filter (fun e => negb (is_render e)) evs).
Proof.
  induction evs as [|e evs IH]; intros w H; [reflexivity|].
  destruct e as [|s| |]; simpl filter; rewrite ?run_cons;
    try (apply IH; now apply Reach_step).
  rewrite rerender_mounted by apply H. now apply IH.
Qed.

(** X11: rendering a mounted instance again changes nothing: the effect
    does not run again, so [isLoading] is not set back and the cells, the
    request and the chain stay as they are; an execution ends in the same
    world with its re-renders left out. *)
Theorem rerenders_change_nothing (evs : list Event) :
  run fresh (Render :: evs)
  = run fresh (Render :: filter (fun e => negb (is_render e)) evs)
  /\ step (run fresh (Render :: evs)) Render = run fresh (Render :: evs).
Proof.
  rewrite !run_cons. split.
  - apply run_without_rerenders, Reach_mount.
  - apply rerender_mounted. apply (Reach_run evs _ Reach_mount).
Qed.

End MoreProperties.

(* ------------------------------------------------------------------ *)
(** ** The first frame *)

Section FirstFrame.
Import AppComponent FirstRender.

Lemma play_cons (i : Instance) (p : Phase) (ps : list Phase) :
  play i (p :: ps) = play (advance i p) ps.
Proof. reflexivity. Qed.

Lemma Awaiting_commit : Awaiting (advance created Commit).
Proof. left. reflexivity. Qed.

Lemma Awaiting_advance (i : Instance) (p : Phase) :
  Awaiting i -> quiet p = true -> Awaiting (advance i p).
Proof.
  intros [->|(Hp & HI & Hr)] Hq.
  - destruct p as [| |[|s| |]]; try discriminate.
    + left. reflexivity.
    + right. split; [reflexivity|]. split; [apply Inv_mount | reflexivity].
    + right. simpl. split; [reflexivity|]. split.
      * apply (Inv_step false (effect (mount fresh)) Render Inv_mount).
        discriminate.
      * reflexivity.
    + left. reflexivity.
  - destruct i as [w pending]. simpl in *. subst pending.
    assert (Hlife : life w = Mounted) by apply HI.
    destruct p as [| |[|s| |]]; try discriminate; right.
    + unfold advance, commit; cbn [world effectPending].
      rewrite Hlife. cbn [world effectPending]. auto.
    + cbn [advance flush world effectPending]. auto.
    + change (advance (mkInstance w false) (Then Render))
        with (mkInstance (step w Render) false).
      cbn [world effectPending]. split; [reflexivity|]. split.
      * apply (Inv_step false w Render HI). discriminate.
      * now rewrite (Inv_request_step false w Render HI).
    + change (advance (mkInstance w false) (Then Tick))
        with (mkInstance (step w Tick) false).
      cbn [world effectPending]. split; [reflexivity|]. split.
      * apply (Inv_step false w Tick HI). discriminate.
      * now rewrite (Inv_request_step false w Tick HI).
Qed.

Lemma Awaiting_play (ps : list Phase) :
  forall i : Instance,
    Awaiting i -> forallb quiet ps = true -> Awaiting (play i ps).
Proof.
  induction ps as [|p ps IH]; intros i H Hq; [assumption|].
  simpl in Hq. apply andb_prop in Hq as [Hp Hps].
  rewrite play_cons. apply IH; [now apply Awaiting_advance | assumption].
Qed.

Lemma Awaiting_loading (i : Instance) :
  Awaiting i -> projection (world i) = Some LoadingSpinner.
Proof.
  intros [->|(_ & HI & Hr)]; [reflexivity|].
  destruct HI as (Hl & _ & Hc & _).
  unfold projection. rewrite Hl, Hc, Hr. reflexivity.
Qed.

(** The two phases together are the first render of [AppComponent]: a run
    of events after them ends in the world of the same run after
    [Render]. *)
Lemma play_events (evs : list Event) :
  forall i : Instance,
    effectPending i = false ->
    world (play i (map Then evs)) = run (world i) evs
    /\ effectPending (play i (map Then evs)) = false.
Proof.
  induction evs as [|e evs IH]; intros [w pending] Hp; simpl in Hp; subst.
  - split; reflexivity.
  - simpl map. rewrite play_cons, run_cons.
    destruct e as [|s| |]; apply (IH (mkInstance _ false)); reflexivity.
Qed.

(** C4: from the first frame on, and as long as neither a completion
    signal nor a teardown has arrived, the instance shows the wait
    indicator: in the frame committed from the initial values of the cells,
    before the effect has run, and in every state after it, whatever else
    happens and however the request will settle. *)
Theorem loading_from_first_frame (ps : list Phase) :
  forallb quiet ps = true ->
  projection (world (play created (Commit :: ps))) = Some LoadingSpinner
  /\ projection (world (play created [Commit])) = Some (App initial_cells)
  /\ fetchCalls (world (play created [Commit])) = 0
  /\ (forall evs,
        world (play created (Commit :: Flush :: map Then evs))
        = run fresh (Render :: evs)).
Proof.
  intros Hq. split; [|split; [reflexivity|split; [reflexivity|]]].
  - rewrite play_cons. apply Awaiting_loading.
    apply Awaiting_play; [apply Awaiting_commit | assumption].
  - intros evs. rewrite !play_cons.
    apply (play_events evs (mkInstance (effect (mount fresh)) false)).
    reflexivity.
Qed.

Lemma loading_from_first_frame_witness :
  projection (world (play created (Commit :: [Then Tick; Flush; Then Render])))
  = Some LoadingSpinner.
Proof.
  apply (loading_from_first_frame [Then Tick; Flush; Then Render]).
  reflexivity.
Defined.

End FirstFrame.

(* ------------------------------------------------------------------ *)
(** ** Completion signals without a promise *)

Section SecondSignal.
Import AppComponent.









End SecondSignal.
